(** * Zero-copy file I/O over a growable shared mapping (src/zc_io.c)

    Shallow embedding of [zc_open], [zc_read_start], [zc_read_end],
    [zc_write_start], [zc_write_end] and [zc_lseek].

    - [off_t], [long] and [size_t] values are integers [Z]; conversions
      from [size_t] to [long]/[off_t] are written out with [to_long]
      (two's complement, 64 bits, as gcc does).
    - The backing store is the list of its bytes ([disk]); the mapping is
      [MAP_SHARED], so byte [i] of the mapping is byte [i] of the file.
    - Semaphores are their counters; in the sequential model a
      [sem_wait] on a zero counter never returns, rendered as [None]
      (the calling thread blocks for ever).
    - The outcomes of the system calls that may fail ([ftruncate],
      [mremap], [msync]) are inputs to the operations. *)

From Stdlib Require Import ZArith List Lia Bool.
From Stdlib Require String.
Import ListNotations.
Open Scope Z_scope.

(** ** Machine integers *)

Definition two64 : Z := 2 ^ 64.
Definition two63 : Z := 2 ^ 63.

(** Conversion of a 64-bit pattern (e.g. a [size_t], or an unsigned sum)
    to [long]/[off_t]. *)
Definition to_long (x : Z) : Z :=
  let m := x mod two64 in if two63 <=? m then m - two64 else m.

(** [file->offset += n] with [n : size_t]: the [off_t] is converted to
    [size_t], the sum is taken modulo 2^64 and stored back into [off_t]. *)
Definition off_add_size (o n : Z) : Z := to_long (o + n).

(** ** The [zc_file] structure *)

Record zc_file := mk_zc_file {
  disk : list Byte.byte;   (** contents of the file behind [fd] *)
  size : Z;                (** [file->size], the length of the mapping *)
  offset : Z;              (** [file->offset] *)
  mutex : Z;               (** counter of [*file->mutex] *)
  room_empty : Z;          (** counter of [*file->room_empty] *)
  n_readers : Z            (** [file->n_readers] *)
}.

Definition set_disk (d : list Byte.byte) (f : zc_file) : zc_file :=
  mk_zc_file d (size f) (offset f) (mutex f) (room_empty f) (n_readers f).
Definition set_size (s : Z) (f : zc_file) : zc_file :=
  mk_zc_file (disk f) s (offset f) (mutex f) (room_empty f) (n_readers f).
Definition set_offset (o : Z) (f : zc_file) : zc_file :=
  mk_zc_file (disk f) (size f) o (mutex f) (room_empty f) (n_readers f).
Definition set_mutex (m : Z) (f : zc_file) : zc_file :=
  mk_zc_file (disk f) (size f) (offset f) m (room_empty f) (n_readers f).
Definition set_room_empty (r : Z) (f : zc_file) : zc_file :=
  mk_zc_file (disk f) (size f) (offset f) (mutex f) r (n_readers f).
Definition set_n_readers (n : Z) (f : zc_file) : zc_file :=
  mk_zc_file (disk f) (size f) (offset f) (mutex f) (room_empty f) n.

(** ** A state monad whose failure is "blocked on a semaphore" *)

Definition M (A : Type) : Type := zc_file -> option (A * zc_file).

Definition ret {A} (a : A) : M A := fun f => Some (a, f).
Definition bind {A B} (m : M A) (k : A -> M B) : M B :=
  fun f => match m f with Some (a, f') => k a f' | None => None end.
Definition get : M zc_file := fun f => Some (f, f).
Definition modify (g : zc_file -> zc_file) : M unit :=
  fun f => Some (tt, g f).

Notation "x <- m ;; k" := (bind m (fun x => k))
  (at level 61, m at next level, right associativity).
Notation "m ;;; k" := (bind m (fun _ => k))
  (at level 61, right associativity).

(** [sem_wait] / [sem_post] on the two semaphores of the file. *)
Definition sem_wait_mutex : M unit :=
  fun f => if 0 <? mutex f then Some (tt, set_mutex (mutex f - 1) f) else None.
Definition sem_post_mutex : M unit :=
  modify (fun f => set_mutex (mutex f + 1) f).
Definition sem_wait_room : M unit :=
  fun f => if 0 <? room_empty f
           then Some (tt, set_room_empty (room_empty f - 1) f) else None.
Definition sem_post_room : M unit :=
  modify (fun f => set_room_empty (room_empty f + 1) f).

(** ** System calls on the backing store *)

Fixpoint zeros (n : nat) : list Byte.byte :=
  match n with O => [] | S k => Byte.x00 :: zeros k end.

(** [ftruncate(fd, len)] on success: the file is cut or extended with
    zero bytes to [len]. *)
Definition truncate_to (len : Z) (d : list Byte.byte) : list Byte.byte :=
  firstn (Z.to_nat len) d ++ zeros (Z.to_nat len - length d).

(** [memset(base + lo, 0, hi - lo)] on the shared mapping, i.e. on the
    file bytes [lo .. hi-1]. *)
Fixpoint memset_zero (lo hi : nat) (d : list Byte.byte) : list Byte.byte :=
  match d with
  | [] => []
  | b :: d' =>
      (if andb (Nat.leb lo 0) (Nat.ltb 0 hi) then Byte.x00 else b)
        :: memset_zero (Nat.pred lo) (Nat.pred hi) d'
  end.

(** Outcome of the fallible system calls of one [zc_write_start]. *)
Record env := mk_env { ftruncate_ok : bool; mremap_ok : bool }.
Definition env_ok : env := mk_env true true.

(** ** The operations *)

(** [zc_open] on a file whose current contents are [d] (success path). *)
Definition zc_open (d : list Byte.byte) : zc_file :=
  let file_size := if Z.eqb (Z.of_nat (length d)) 0 then 1
                   else Z.of_nat (length d) in
  mk_zc_file d file_size 0 1 1 0.

(** [zc_read_start(file, size)]: the result is the returned pointer as an
    offset from [base_ptr] ([None] is [NULL]) and the value stored in
    [*size]. *)
Definition zc_read_start (req : Z) : M (option Z * Z) :=
  sem_wait_mutex ;;;
  modify (fun f => set_n_readers (n_readers f + 1) f) ;;;
  f <- get ;;
  (if Z.eqb (n_readers f) 1 then sem_wait_room else ret tt) ;;;
  sem_post_mutex ;;;
  f <- get ;;
  if size f <=? offset f then ret (None, 0)
  else
    let remaining_size := size f - offset f in
    let sz := if remaining_size <? to_long req then remaining_size else req in
    modify (set_offset (off_add_size (offset f) sz)) ;;;
    ret (Some (offset f), sz).

(** [zc_read_end(file)]. *)
Definition zc_read_end : M unit :=
  sem_wait_mutex ;;;
  modify (fun f => set_n_readers (n_readers f - 1) f) ;;;
  f <- get ;;
  (if Z.eqb (n_readers f) 0 then sem_post_room else ret tt) ;;;
  sem_post_mutex.

(** [zc_write_start(file, size)]. *)
Definition zc_write_start (e : env) (sz : Z) : M (option Z) :=
  sem_wait_room ;;;
  f <- get ;;
  let remaining_size := size f - offset f in
  if remaining_size <? to_long sz then
    let new_size := off_add_size (offset f) sz in
    if negb (ftruncate_ok e) || (new_size <? 0) then ret None
    else
      modify (set_disk (truncate_to new_size (disk f))) ;;;
      if negb (mremap_ok e) then ret None
      else
        modify (fun g => set_disk (memset_zero (Z.to_nat (size f))
                                     (Z.to_nat new_size) (disk g)) g) ;;;
        modify (set_size new_size) ;;;
        modify (fun g => set_offset (off_add_size (offset g) sz) g) ;;;
        ret (Some (offset f))
  else
    modify (fun g => set_offset (off_add_size (offset g) sz) g) ;;;
    ret (Some (offset f)).

(** [zc_write_end(file)]: [msync] may fail; its failure is only printed. *)
Definition zc_write_end (msync_ok : bool) : M unit :=
  (if msync_ok then ret tt else ret tt) ;;;
  sem_post_room.

Definition SEEK_SET : Z := 0.
Definition SEEK_CUR : Z := 1.
Definition SEEK_END : Z := 2.

(** [zc_lseek(file, offset, whence)].  Signed overflow of the [long]
    additions is undefined in C; the model adds in [Z], which agrees with
    the C code wherever the C code is defined. *)
Definition zc_lseek (off whence : Z) : M Z :=
  sem_wait_room ;;;
  f <- get ;;
  let new_offset :=
    if Z.eqb whence SEEK_SET then off
    else if Z.eqb whence SEEK_CUR then offset f + off
    else if Z.eqb whence SEEK_END then size f + off
    else -1 in
  if new_offset <? 0 then ret (-1)
  else
    modify (set_offset new_offset) ;;;
    sem_post_room ;;;
    ret new_offset.

(** ** Accesses of the caller through a returned view

    A store or load at mapping offsets [p .. p+n-1] faults when it leaves
    the mapping ([SIGSEGV]) or touches a page that lies beyond the end of
    the file ([SIGBUS]).  In the states the operations reach, the mapping
    is longer than the file only when the file is empty (the one-byte
    mapping of [zc_open]), where the only page lies wholly beyond the end
    of the file; so a fault is exactly an access past [length disk]. *)

Fixpoint store_bytes (p : nat) (bs d : list Byte.byte) : list Byte.byte :=
  match d with
  | [] => []
  | b :: d' =>
      match p, bs with
      | O, x :: bs' => x :: store_bytes O bs' d'
      | O, [] => d
      | S p', _ => b :: store_bytes p' bs d'
      end
  end.

Definition view_write (p : Z) (bs : list Byte.byte) (f : zc_file)
  : option zc_file :=
  if (0 <=? p) && (p + Z.of_nat (length bs) <=? size f)
     && (p + Z.of_nat (length bs) <=? Z.of_nat (length (disk f)))
  then Some (set_disk (store_bytes (Z.to_nat p) bs (disk f)) f)
  else None.

Definition view_read (p n : Z) (f : zc_file) : option (list Byte.byte) :=
  if (0 <=? p) && (0 <=? n) && (p + n <=? size f)
     && (p + n <=? Z.of_nat (length (disk f)))
  then Some (firstn (Z.to_nat n) (skipn (Z.to_nat p) (disk f)))
  else None.

(** The bytes a [(pointer, actual_size)] result of [zc_read_start] shows. *)
Definition read_view (r : option Z * Z) (f : zc_file)
  : option (list Byte.byte) :=
  match fst r with
  | None => if Z.eqb (snd r) 0 then Some [] else None
  | Some p => view_read p (snd r) f
  end.

(** ** Callers and derived states *)

(** The state reached by a successful [zc_write_start env_ok sz] from [f]
    when [offset + sz] is a valid [off_t]. *)
Definition write_started (f : zc_file) (sz : Z) : zc_file :=
  let o := offset f in
  if size f <? o + sz then
    mk_zc_file (memset_zero (Z.to_nat (size f)) (Z.to_nat (o + sz))
                  (truncate_to (o + sz) (disk f)))
               (o + sz) (o + sz) (mutex f) (room_empty f - 1) (n_readers f)
  else mk_zc_file (disk f) (size f) (o + sz) (mutex f) (room_empty f - 1)
                  (n_readers f).

Ltac unfold_ops :=
  unfold zc_write_start, zc_write_end, zc_read_start, zc_read_end, zc_lseek,
    bind, ret, get, modify, sem_wait_room, sem_post_room, sem_wait_mutex,
    sem_post_mutex, set_disk, set_size, set_offset, set_mutex,
    set_room_empty, set_n_readers in *; cbn [disk size offset mutex
    room_empty n_readers ftruncate_ok mremap_ok env_ok negb orb andb] in *.

(** The state after the entry protocol of [zc_read_start] (counter
    incremented, [room_empty] taken by the first reader, mutex released). *)
Definition read_entered (f : zc_file) : zc_file :=
  mk_zc_file (disk f) (size f) (offset f) (mutex f)
    (if Z.eqb (n_readers f + 1) 1 then room_empty f - 1 else room_empty f)
    (n_readers f + 1).

(** The [*size] value [zc_read_start] computes for a request [req] at
    cursor [o] in a mapping of length [s] with [o < s]. *)
Definition read_clamp (s o req : Z) : Z :=
  if s - o <? to_long req then s - o else req.

(** A caller writing [bs] at the cursor: [zc_write_start], stores through
    the returned view, [zc_write_end] (which the protocol requires also
    after a failed [zc_write_start]).  [None] when a call blocks or a store
    faults. *)
Definition write_bytes (e : env) (bs : list Byte.byte) (f : zc_file)
  : option zc_file :=
  match zc_write_start e (Z.of_nat (length bs)) f with
  | Some (Some p, f1) =>
      match view_write p bs f1 with
      | Some f2 => option_map snd (zc_write_end true f2)
      | None => None
      end
  | Some (None, f1) => option_map snd (zc_write_end true f1)
  | None => None
  end.

Definition seek_to (o : Z) (f : zc_file) : option zc_file :=
  option_map snd (zc_lseek o SEEK_SET f).

Definition abc : list Byte.byte := [Byte.x61; Byte.x62; Byte.x63].
Definition xyz : list Byte.byte := [Byte.x78; Byte.x79; Byte.x7a].


(** The position a seek designates, following the spec's words: from the
    start, from the current cursor, or from [mapped_length] according to
    the mode; [None] for a mode that is none of the three. *)
Definition seek_position (f : zc_file) (off whence : Z) : option Z :=
  if Z.eqb whence SEEK_SET then Some off
  else if Z.eqb whence SEEK_CUR then Some (offset f + off)
  else if Z.eqb whence SEEK_END then Some (size f + off)
  else None.

(** ** The readers-writer protocol, interleaved

    Any number of threads run [zc_read_start]/[zc_read_end],
    [zc_write_start]/[zc_write_end] and [zc_lseek] on one [zc_file].
    The threads of one kind run the same code, so a global state records
    the semaphores, [n_readers] and how many threads stand at each program
    point; a step moves one thread over one atomic action of the source
    (a [sem_wait], a [sem_post], an update or test of [n_readers]).  The
    accesses to the mapping and to [offset] inside the windows do not
    touch the synchronisation state and are not steps of their own. *)

Inductive pc :=
  | R_idle        (** before [zc_read_start] *)
  | R_inc         (** line 101: [n_readers++] *)
  | R_chk1        (** line 102: [if (n_readers == 1)] *)
  | R_wait_room   (** line 104: [sem_wait(room_empty)] *)
  | R_post1       (** line 106: [sem_post(mutex)] *)
  | R_in          (** holding a read window *)
  | R_dec         (** line 132: [n_readers--] *)
  | R_chk0        (** line 133: [if (n_readers == 0)] *)
  | R_post_room   (** line 135: [sem_post(room_empty)] *)
  | R_post2       (** line 137: [sem_post(mutex)] *)
  | W_idle        (** before [zc_write_start] *)
  | W_in          (** holding a write window, until line 179 *)
  | S_idle        (** before [zc_lseek] *)
  | S_in.         (** between lines 184 and 204-210 *)

Definition pc_index (x : pc) : nat :=
  match x with
  | R_idle => 0 | R_inc => 1 | R_chk1 => 2 | R_wait_room => 3 | R_post1 => 4
  | R_in => 5 | R_dec => 6 | R_chk0 => 7 | R_post_room => 8 | R_post2 => 9
  | W_idle => 10 | W_in => 11 | S_idle => 12 | S_in => 13
  end.

Definition pc_eqb (x y : pc) : bool := Nat.eqb (pc_index x) (pc_index y).

Record rw_state := mk_rw_state {
  rw_mutex : Z;          (** counter of [*file->mutex] *)
  rw_room_empty : Z;     (** counter of [*file->room_empty] *)
  rw_n_readers : Z;      (** [file->n_readers] *)
  at_pc : pc -> nat      (** number of threads at each program point *)
}.

(** One thread goes from [a] to [b]. *)
Definition move (a b : pc) (c : pc -> nat) : pc -> nat :=
  fun x => if pc_eqb x a then (c x - 1)%nat
           else if pc_eqb x b then S (c x) else c x.

Definition rw_upd (dm dr dn : Z) (a b : pc) (s : rw_state) : rw_state :=
  mk_rw_state (rw_mutex s + dm) (rw_room_empty s + dr) (rw_n_readers s + dn)
    (move a b (at_pc s)).

Inductive rw_step : rw_state -> rw_state -> Prop :=
  (* zc_read_start *)
  | st_r_wait_mutex s : (0 < at_pc s R_idle)%nat -> 0 < rw_mutex s ->
      rw_step s (rw_upd (-1) 0 0 R_idle R_inc s)
  | st_r_inc s : (0 < at_pc s R_inc)%nat ->
      rw_step s (rw_upd 0 0 1 R_inc R_chk1 s)
  | st_r_first s : (0 < at_pc s R_chk1)%nat -> rw_n_readers s = 1 ->
      rw_step s (rw_upd 0 0 0 R_chk1 R_wait_room s)
  | st_r_not_first s : (0 < at_pc s R_chk1)%nat -> rw_n_readers s <> 1 ->
      rw_step s (rw_upd 0 0 0 R_chk1 R_post1 s)
  | st_r_wait_room s : (0 < at_pc s R_wait_room)%nat -> 0 < rw_room_empty s ->
      rw_step s (rw_upd 0 (-1) 0 R_wait_room R_post1 s)
  | st_r_post_mutex s : (0 < at_pc s R_post1)%nat ->
      rw_step s (rw_upd 1 0 0 R_post1 R_in s)
  (* zc_read_end *)
  | st_r_end_wait_mutex s : (0 < at_pc s R_in)%nat -> 0 < rw_mutex s ->
      rw_step s (rw_upd (-1) 0 0 R_in R_dec s)
  | st_r_dec s : (0 < at_pc s R_dec)%nat ->
      rw_step s (rw_upd 0 0 (-1) R_dec R_chk0 s)
  | st_r_last s : (0 < at_pc s R_chk0)%nat -> rw_n_readers s = 0 ->
      rw_step s (rw_upd 0 0 0 R_chk0 R_post_room s)
  | st_r_not_last s : (0 < at_pc s R_chk0)%nat -> rw_n_readers s <> 0 ->
      rw_step s (rw_upd 0 0 0 R_chk0 R_post2 s)
  | st_r_post_room s : (0 < at_pc s R_post_room)%nat ->
      rw_step s (rw_upd 0 1 0 R_post_room R_post2 s)
  | st_r_post_mutex2 s : (0 < at_pc s R_post2)%nat ->
      rw_step s (rw_upd 1 0 0 R_post2 R_idle s)
  (* zc_write_start / zc_write_end *)
  | st_w_wait_room s : (0 < at_pc s W_idle)%nat -> 0 < rw_room_empty s ->
      rw_step s (rw_upd 0 (-1) 0 W_idle W_in s)
  | st_w_post_room s : (0 < at_pc s W_in)%nat ->
      rw_step s (rw_upd 0 1 0 W_in W_idle s)
  (* zc_lseek: success posts the room, the negative case returns early *)
  | st_s_wait_room s : (0 < at_pc s S_idle)%nat -> 0 < rw_room_empty s ->
      rw_step s (rw_upd 0 (-1) 0 S_idle S_in s)
  | st_s_ok s : (0 < at_pc s S_in)%nat ->
      rw_step s (rw_upd 0 1 0 S_in S_idle s)
  | st_s_fail s : (0 < at_pc s S_in)%nat ->
      rw_step s (rw_upd 0 0 0 S_in S_idle s).

(** [zc_open]'s synchronisation state with [nr] reader, [nw] writer and
    [ns] seeking threads about to start. *)
Definition rw_init (nr nw ns : nat) : rw_state :=
  mk_rw_state 1 1 0
    (fun x => match x with
              | R_idle => nr | W_idle => nw | S_idle => ns | _ => 0%nat
              end).

Inductive rw_reachable (nr nw ns : nat) : rw_state -> Prop :=
  | reach_init : rw_reachable nr nw ns (rw_init nr nw ns)
  | reach_step s s' : rw_reachable nr nw ns s -> rw_step s s' ->
      rw_reachable nr nw ns s'.

(** The invariant of the protocol.  [in_group] counts the readers that
    hold the room on behalf of the reader group between taking it and
    decrementing [n_readers]. *)
Definition in_group (s : rw_state) : nat :=
  (at_pc s R_post1 + at_pc s R_in + at_pc s R_dec)%nat.

Definition rw_inv (s : rw_state) : Prop :=
  0 <= rw_mutex s /\ 0 <= rw_room_empty s /\
  rw_mutex s + Z.of_nat (at_pc s R_inc + at_pc s R_chk1 + at_pc s R_wait_room
     + at_pc s R_post1 + at_pc s R_dec + at_pc s R_chk0 + at_pc s R_post_room
     + at_pc s R_post2) = 1 /\
  rw_n_readers s = Z.of_nat (at_pc s R_chk1 + at_pc s R_wait_room
     + in_group s) /\
  ((0 < at_pc s R_wait_room)%nat -> rw_n_readers s = 1) /\
  ((0 < at_pc s R_post_room)%nat -> rw_n_readers s = 0) /\
  rw_room_empty s + Z.of_nat (at_pc s W_in + at_pc s S_in) <= 1 /\
  ((0 < in_group s + at_pc s R_chk0 + at_pc s R_post_room)%nat ->
     rw_room_empty s + Z.of_nat (at_pc s W_in + at_pc s S_in) = 0).

(** The synchronisation state after [i] of [nr] readers have entered
    their windows one after the other, with one idle writer. *)
Definition entered (nr i : nat) (x : pc) : nat :=
  match x with
  | R_idle => (nr - i)%nat | R_in => i | W_idle => 1%nat | _ => 0%nat
  end.

(** ** The process around a handle: files, descriptors and heap

    [zc_open], [zc_close] and [zc_copyfile] act on the file system, on the
    descriptor table and on the heap.  Files are an association list from
    paths to contents, descriptors map to the path they were opened on
    (their file offset is 0: the code never moves it), heap blocks are
    numbered.  Each system call that may fail takes its outcome as an
    input; [malloc] is taken to succeed (the code does not test it).
    [close] releases the descriptor also when it reports an error, as on
    Linux. *)

Record proc := mk_proc {
  files : list (String.string * list Byte.byte);
  fds : list (Z * String.string);
  next_fd : Z;
  heap : list Z;
  next_blk : Z
}.

Fixpoint lookup_file (path : String.string)
  (fs : list (String.string * list Byte.byte)) : option (list Byte.byte) :=
  match fs with
  | [] => None
  | (q, c) :: fs' => if String.eqb path q then Some c else lookup_file path fs'
  end.

Fixpoint update_file (path : String.string) (c : list Byte.byte)
  (fs : list (String.string * list Byte.byte))
  : list (String.string * list Byte.byte) :=
  match fs with
  | [] => [(path, c)]
  | (q, c') :: fs' =>
      if String.eqb path q then (q, c) :: fs' else (q, c') :: update_file path c fs'
  end.

Fixpoint fd_path (fd : Z) (t : list (Z * String.string)) : option String.string :=
  match t with
  | [] => None
  | (n, q) :: t' => if Z.eqb fd n then Some q else fd_path fd t'
  end.

Definition set_files (fs : list (String.string * list Byte.byte)) (p : proc) : proc :=
  mk_proc fs (fds p) (next_fd p) (heap p) (next_blk p).

(** Contents of the file at [path] (empty when there is none). *)
Definition contents (path : String.string) (p : proc) : list Byte.byte :=
  match lookup_file path (files p) with Some c => c | None => [] end.

(** Contents of the file a descriptor is open on. *)
Definition file_of_fd (fd : Z) (p : proc) : list Byte.byte :=
  match fd_path fd (fds p) with
  | Some path => match lookup_file path (files p) with Some c => c | None => [] end
  | None => []
  end.

(** Replace the contents of the file behind [fd]. *)
Definition write_fd (fd : Z) (c : list Byte.byte) (p : proc) : proc :=
  match fd_path fd (fds p) with
  | Some path => set_files (update_file path c (files p)) p
  | None => p
  end.

(** [open(path, O_CREAT | O_RDWR, 0666)]. *)
Definition sys_open (ok : bool) (path : String.string) (p : proc) : Z * proc :=
  if ok then
    let fs := match lookup_file path (files p) with
              | Some _ => files p
              | None => update_file path [] (files p)
              end in
    (next_fd p, mk_proc fs ((next_fd p, path) :: fds p) (next_fd p + 1)
                  (heap p) (next_blk p))
  else (-1, p).

(** [close(fd)]. *)
Definition sys_close (ok : bool) (fd : Z) (p : proc) : Z * proc :=
  (if ok then 0 else -1,
   mk_proc (files p) (filter (fun e => negb (Z.eqb (fst e) fd)) (fds p))
     (next_fd p) (heap p) (next_blk p)).

(** [ftruncate(fd, len)] on success. *)
Definition sys_ftruncate (fd len : Z) (p : proc) : proc :=
  write_fd fd (truncate_to len (file_of_fd fd p)) p.

(** [copy_file_range(in, NULL, out, NULL, len, 0)] having copied [k]
    bytes from offset 0 of [in] to offset 0 of [out]. *)
Definition sys_copy (fd_in fd_out k : Z) (p : proc) : proc :=
  let src := file_of_fd fd_in p in
  write_fd fd_out (firstn (Z.to_nat k) src ++ skipn (Z.to_nat k) (file_of_fd fd_out p)) p.

Definition malloc (p : proc) : Z * proc :=
  (next_blk p, mk_proc (files p) (fds p) (next_fd p) (next_blk p :: heap p)
                 (next_blk p + 1)).
Definition free (b : Z) (p : proc) : proc :=
  mk_proc (files p) (fds p) (next_fd p)
    (filter (fun x => negb (Z.eqb x b)) (heap p)) (next_blk p).

(** A [zc_file *]: its descriptor, its three heap blocks ([*mutex],
    [*room_empty] and the struct) and the fields of [zc_file]. *)
Record zc_handle := mk_zc_handle {
  h_fd : Z; h_mutex_blk : Z; h_room_blk : Z; h_blk : Z; h_file : zc_file
}.

Record open_env := mk_open_env { open_ok : bool; fstat_ok : bool; mmap_ok : bool }.
Definition open_env_ok : open_env := mk_open_env true true true.

(** [zc_open(path)] with its failure paths ([None] is [NULL]). *)
Definition zc_open_proc (e : open_env) (path : String.string) (p : proc)
  : option zc_handle * proc :=
  let (fd, p1) := sys_open (open_ok e) path p in
  if Z.eqb fd (-1) then (None, p1)
  else if negb (fstat_ok e) then (None, p1)
  else
    let d := file_of_fd fd p1 in
    if negb (mmap_ok e) then (None, p1)
    else
      let (m, p2) := malloc p1 in
      let (r, p3) := malloc p2 in
      let (b, p4) := malloc p3 in
      (Some (mk_zc_handle fd m r b (zc_open d)), p4).

Record close_env := mk_close_env { fsync_ok : bool; munmap_ok : bool; close_ok : bool }.
Definition close_env_ok : close_env := mk_close_env true true true.

(** [zc_close(file)].  The mapping is [MAP_SHARED]: its bytes are the
    file's, so the file table first takes the contents of the handle. *)
Definition zc_close_proc (e : close_env) (h : zc_handle) (p : proc) : Z * proc :=
  let p0 := write_fd (h_fd h) (disk (h_file h)) p in
  if negb (fsync_ok e) then (-1, p0)
  else if negb (munmap_ok e) then (-1, p0)
  else
    let (rc, p1) := sys_close (close_ok e) (h_fd h) p0 in
    if Z.eqb rc (-1) then (-1, p1)
    else (0, free (h_blk h) p1).

Record copy_env := mk_copy_env {
  src_open_ok : bool; src_fstat_ok : bool; dst_open_ok : bool;
  dst_ftruncate_ok : bool;
  copy_ret : Z;          (** what [copy_file_range] returns *)
  dst_close_ok : bool
}.

(** [zc_copyfile(source, dest)]. *)
Definition zc_copyfile_proc (e : copy_env) (source dest : String.string)
  (p : proc) : Z * proc :=
  let (source_fd, p1) := sys_open (src_open_ok e) source p in
  if Z.eqb source_fd (-1) then (-1, p1)
  else if negb (src_fstat_ok e) then (-1, p1)
  else
    let st_size := Z.of_nat (length (file_of_fd source_fd p1)) in
    let (dest_fd, p2) := sys_open (dst_open_ok e) dest p1 in
    if Z.eqb dest_fd (-1) then (-1, p2)
    else if negb (dst_ftruncate_ok e) then (-1, p2)
    else
      let p3 := sys_ftruncate dest_fd st_size p2 in
      if Z.eqb (copy_ret e) (-1) then (-1, p3)
      else
        let p4 := sys_copy source_fd dest_fd (Z.min (copy_ret e) st_size) p3 in
        let (rc, p5) := sys_close (dst_close_ok e) dest_fd p4 in
        if Z.eqb rc (-1) then (-1, p5) else (0, p5).

(** Sample file systems: two paths, and a process where ["a"] holds
    [abc] and ["b"] holds six bytes. *)
Definition path_a : String.string := String.String (Ascii.ascii_of_nat 97) String.EmptyString.
Definition path_b : String.string := String.String (Ascii.ascii_of_nat 98) String.EmptyString.
Definition proc_ab : proc := mk_proc [(path_a, abc); (path_b, xyz ++ xyz)] [] 3 [] 0.

(** ** Facts about the list operations *)

Lemma to_long_small (x : Z) : 0 <= x < two63 -> to_long x = x.
Proof.
  intros H. unfold to_long, two64, two63 in *.
  rewrite Z.mod_small by lia.
  destruct (Z.leb_spec (2 ^ 63) x); lia.
Qed.

Lemma zeros_length (n : nat) : length (zeros n) = n.
Proof. induction n; simpl; auto. Qed.


Lemma truncate_to_length (len : Z) (d : list Byte.byte) :
  0 <= len -> length (truncate_to len d) = Z.to_nat len.
Proof.
  intros H. unfold truncate_to.
  rewrite length_app, length_firstn, zeros_length. lia.
Qed.



Lemma memset_zero_length (lo hi : nat) (d : list Byte.byte) :
  length (memset_zero lo hi d) = length d.
Proof.
  revert lo hi; induction d; intros lo hi; simpl; auto.
Qed.


Lemma store_bytes_length (p : nat) (bs d : list Byte.byte) :
  length (store_bytes p bs d) = length d.
Proof.
  revert p bs; induction d as [|b d IH]; intros p bs; simpl; auto.
  destruct p, bs; simpl; auto.
Qed.

Lemma store_bytes_read (p : nat) (bs d : list Byte.byte) :
  (p + length bs <= length d)%nat ->
  firstn (length bs) (skipn p (store_bytes p bs d)) = bs.
Proof.
  revert p bs; induction d as [|b d IH]; intros p bs H.
  - simpl in H. destruct bs; simpl in *; [destruct p; reflexivity | lia].
  - destruct p as [|p].
    + destruct bs as [|x bs]; simpl; [reflexivity|].
      simpl in H. f_equal.
      specialize (IH 0%nat bs). simpl in IH. apply IH. lia.
    + simpl. simpl in H. apply IH. lia.
Qed.

(** ** Behaviour of the operations on well-formed arguments *)

Lemma zc_write_start_ok (f : zc_file) (sz : Z) :
  0 < room_empty f -> 0 <= offset f -> 0 <= sz -> offset f + sz < two63 ->
  zc_write_start env_ok sz f = Some (Some (offset f), write_started f sz).
Proof.
  intros Hr Ho Hs Hb. destruct f as [d s o m r n]; cbn in *.
  unfold write_started; unfold_ops.
  assert (Hr' : (0 <? r) = true) by (apply Z.ltb_lt; lia). rewrite Hr'.
  assert (H1 : to_long sz = sz) by (apply to_long_small; unfold two63 in *; lia).
  assert (H2 : to_long (o + sz) = o + sz) by (apply to_long_small; unfold two63 in *; lia).
  unfold off_add_size. rewrite H1. cbn.
  destruct (Z.ltb_spec (s - o) sz) as [Hg|Hg];
    destruct (Z.ltb_spec s (o + sz)) as [Hg'|Hg']; try lia; cbn;
    rewrite ?H2.
  - destruct (Z.ltb_spec (o + sz) 0); [lia|]. cbn. rewrite H2. reflexivity.
  - reflexivity.
Qed.

(** ** C2: growth of the file on an overflowing [zc_write_start] *)


(** ** Each operation, unfolded *)

Lemma zc_write_end_spec (b : bool) (f : zc_file) :
  zc_write_end b f = Some (tt, set_room_empty (room_empty f + 1) f).
Proof. destruct b; reflexivity. Qed.

Lemma zc_read_start_spec (req : Z) (f : zc_file) :
  0 < mutex f -> (n_readers f = 0 -> 0 < room_empty f) ->
  zc_read_start req f =
    let g := read_entered f in
    if size g <=? offset g then Some ((None, 0), g)
    else
      let sz := read_clamp (size g) (offset g) req in
      Some ((Some (offset g), sz), set_offset (off_add_size (offset g) sz) g).
Proof.
  intros Hm Hr. destruct f as [d s o m r n]; cbn in *.
  unfold read_entered, read_clamp; unfold_ops.
  destruct (Z.ltb_spec 0 m); [|lia]. cbn.
  destruct (Z.eqb_spec (n + 1) 1) as [Hn|Hn]; cbn.
  - destruct (Z.ltb_spec 0 r); [|lia]. cbn.
    replace (m - 1 + 1) with m by lia. destruct (s <=? o); reflexivity.
  - replace (m - 1 + 1) with m by lia. destruct (s <=? o); reflexivity.
Qed.

Lemma zc_lseek_spec (off whence : Z) (f : zc_file) :
  0 < room_empty f ->
  zc_lseek off whence f =
    let new_offset :=
      if Z.eqb whence SEEK_SET then off
      else if Z.eqb whence SEEK_CUR then offset f + off
      else if Z.eqb whence SEEK_END then size f + off
      else -1 in
    if new_offset <? 0
    then Some (-1, set_room_empty (room_empty f - 1) f)
    else Some (new_offset, set_offset new_offset f).
Proof.
  intros Hr. destruct f as [d s o m r n]; cbn in *. unfold_ops.
  destruct (Z.ltb_spec 0 r); [|lia]. cbn.
  destruct (_ <? 0); cbn; [reflexivity|].
  replace (r - 1 + 1) with r by lia. reflexivity.
Qed.

Lemma write_started_fields (f : zc_file) (sz : Z) :
  offset (write_started f sz) = offset f + sz /\
  mutex (write_started f sz) = mutex f /\
  room_empty (write_started f sz) = room_empty f - 1 /\
  n_readers (write_started f sz) = n_readers f.
Proof. unfold write_started; destruct (_ <? _); cbn; auto. Qed.

(** Outside the one-byte floor the file and the mapping have one length,
    and a write window keeps it so. *)
Lemma write_started_regular (f : zc_file) (sz : Z) :
  0 <= offset f -> 0 <= sz -> Z.of_nat (length (disk f)) = size f ->
  Z.of_nat (length (disk (write_started f sz))) = size (write_started f sz) /\
  offset f + sz <= size (write_started f sz).
Proof.
  intros Ho Hs Hl. unfold write_started.
  destruct (Z.ltb_spec (size f) (offset f + sz)); cbn [disk size]; [|lia].
  rewrite memset_zero_length, truncate_to_length by lia. lia.
Qed.

(** Round trip outside the floor: writing [B] at the cursor, seeking back
    and reading [length B] bytes shows [B]. *)
Lemma round_trip_regular (f : zc_file) (B : list Byte.byte) :
  0 < room_empty f -> 0 < mutex f -> n_readers f = 0 -> 0 <= offset f ->
  offset f + Z.of_nat (length B) < two63 ->
  Z.of_nat (length (disk f)) = size f ->
  exists f2 f3 r f4,
    write_bytes env_ok B f = Some f2 /\
    seek_to (offset f) f2 = Some f3 /\
    zc_read_start (Z.of_nat (length B)) f3 = Some (r, f4) /\
    snd r = Z.of_nat (length B) /\ read_view r f4 = Some B.
Proof.
  intros Hr Hm Hn Ho Hb Hl.
  set (n := Z.of_nat (length B)).
  set (f1 := write_started f n).
  destruct (write_started_regular f n) as [Hl1 Hs1]; [lia|lia|assumption|].
  destruct (write_started_fields f n) as (Ho1 & Hm1 & Hr1 & Hn1).
  fold f1 in Hl1, Hs1, Ho1, Hm1, Hr1, Hn1.
  set (f2 := set_room_empty (room_empty f1 + 1)
               (set_disk (store_bytes (Z.to_nat (offset f)) B (disk f1)) f1)).
  assert (Hw : write_bytes env_ok B f = Some f2).
  { unfold write_bytes. fold n.
    rewrite zc_write_start_ok by (unfold n; lia). fold f1.
    unfold view_write. fold n.
    destruct (Z.leb_spec 0 (offset f)); [|lia].
    destruct (Z.leb_spec (offset f + n) (size f1)); [|lia].
    destruct (Z.leb_spec (offset f + n) (Z.of_nat (length (disk f1)))); [|lia].
    reflexivity. }
  set (f3 := set_offset (offset f) f2).
  assert (Hs : seek_to (offset f) f2 = Some f3).
  { unfold seek_to.
    rewrite zc_lseek_spec by (unfold f2, set_room_empty; cbn; lia).
    cbn zeta. unfold SEEK_SET at 1. rewrite Z.eqb_refl.
    destruct (Z.ltb_spec (offset f) 0); [lia|]. reflexivity. }
  exists f2, f3.
  rewrite zc_read_start_spec
    by (unfold f3, f2, set_offset, set_room_empty, set_disk; cbn; lia).
  cbn zeta.
  assert (Hf3 : disk (read_entered f3) = store_bytes (Z.to_nat (offset f)) B (disk f1)
             /\ size (read_entered f3) = size f1
             /\ offset (read_entered f3) = offset f)
    by (unfold f3, f2, read_entered, set_offset, set_room_empty, set_disk; cbn; auto).
  destruct Hf3 as (Hd3 & Hs3 & Ho3). rewrite Hs3, Ho3.
  destruct (Z.leb_spec (size f1) (offset f)).
  - (* cursor at the end: only possible for an empty [B] *)
    assert (Hz : n = 0) by lia.
    destruct B; [|discriminate].
    do 2 eexists. split; [exact Hw|]. split; [exact Hs|].
    split; [reflexivity|]. split; reflexivity.
  - assert (Hc : read_clamp (size f1) (offset f) n = n).
    { unfold read_clamp. rewrite (to_long_small n) by (unfold n; lia).
      destruct (Z.ltb_spec (size f1 - offset f) n); lia. }
    rewrite Hc.
    do 2 eexists. split; [exact Hw|]. split; [exact Hs|].
    split; [reflexivity|]. split; [reflexivity|].
    unfold read_view, view_read. cbn [fst snd].
    unfold set_offset; cbn [disk size]. rewrite Hs3, Hd3, store_bytes_length.
    destruct (Z.leb_spec 0 (offset f)); [|lia].
    destruct (Z.leb_spec 0 n); [|lia].
    destruct (Z.leb_spec (offset f + n) (size f1)); [|lia].
    destruct (Z.leb_spec (offset f + n) (Z.of_nat (length (disk f1)))); [|lia].
    cbn [andb]. f_equal. unfold n. rewrite Nat2Z.id.
    apply store_bytes_read. lia.
Qed.

(** A [zc_read_start] that returns did not block on either semaphore. *)
Lemma zc_read_start_returns (req : Z) (f f' : zc_file) (r : option Z * Z) :
  zc_read_start req f = Some (r, f') ->
  0 < mutex f /\ (n_readers f = 0 -> 0 < room_empty f).
Proof.
  destruct f as [d s o m rm n]; cbn. unfold_ops.
  destruct (Z.ltb_spec 0 m); cbn; [|discriminate].
  destruct (Z.eqb_spec (n + 1) 1); cbn.
  - destruct (Z.ltb_spec 0 rm); cbn; [|discriminate].
    intros _; split; [lia|intros; lia].
  - intros _; split; [lia|intros; lia].
Qed.

(** ** C10: [NULL] from [zc_read_start] exactly at end of file *)

(** C10: [zc_read_start] returns [NULL] exactly when the cursor is at or
    past [mapped_length], and then leaves the cursor where it was (with
    [*size] set to 0); whenever the cursor is below [mapped_length] it
    returns a non-null pointer, the one at the cursor, for every request
    (also a request of 0 bytes), and that pointer lies in the mapping
    when the cursor is not negative. *)
Theorem read_start_null_iff_eof (req : Z) (f f' : zc_file) (ptr : option Z) (n : Z) :
  zc_read_start req f = Some ((ptr, n), f') ->
  (ptr = None <-> size f <= offset f) /\
  (ptr = None -> offset f' = offset f /\ n = 0) /\
  (offset f < size f ->
     ptr = Some (offset f) /\ (0 <= offset f -> 0 <= offset f < size f)).
Proof.
  intros H. destruct (zc_read_start_returns _ _ _ _ H) as [Hm Hr].
  rewrite zc_read_start_spec in H by assumption. cbn zeta in H.
  unfold read_entered in H; cbn [size offset] in H.
  destruct (Z.leb_spec (size f) (offset f)) as [He|He]; injection H as <- <- <-.
  - cbn. split; [split; auto|]. split; [auto|]. intros; lia.
  - split; [split; [discriminate|lia]|]. split; [discriminate|].
    intros _. split; [reflexivity|lia].
Qed.

(** ** C3 and C9: the read window *)

(** For requests below 2^63 (and a cursor and mapping in the [off_t]
    range) [zc_read_start] sets [*size] to [min(req, size - cursor)],
    clamped to 0 at end of file, returns the window at the old cursor and
    advances the cursor by [*size]; the window lies in the mapping. *)
Lemma read_start_window_bounded (req : Z) (f f' : zc_file) (ptr : option Z) (n : Z) :
  0 <= req < two63 -> 0 <= offset f -> size f < two63 ->
  zc_read_start req f = Some ((ptr, n), f') ->
  n = (if size f <=? offset f then 0 else Z.min req (size f - offset f)) /\
  offset f' = offset f + n /\
  (ptr = None \/ ptr = Some (offset f)) /\
  offset f + n <= Z.max (offset f) (size f).
Proof.
  intros Hq Ho Hs H. destruct (zc_read_start_returns _ _ _ _ H) as [Hm Hr].
  rewrite zc_read_start_spec in H by assumption. cbn zeta in H.
  unfold read_entered in H; cbn [size offset] in H.
  destruct (Z.leb_spec (size f) (offset f)) as [He|He];
    injection H as <- <- <-; cbn.
  - split; [reflexivity|]. split; [lia|]. split; [auto|lia].
  - unfold read_clamp, off_add_size. rewrite (to_long_small req) by lia.
    destruct (Z.ltb_spec (size f - offset f) req).
    + rewrite to_long_small by lia.
      split; [lia|]. split; [lia|]. split; [auto|lia].
    + rewrite to_long_small by lia.
      split; [lia|]. split; [lia|]. split; [auto|lia].
Qed.

(** C3 (defect): a request of [SIZE_MAX] bytes is converted to the [long]
    -1, escapes the clamp, and comes back unchanged as [*size] on a
    three-byte file, where [min(req, size - cursor)] is 3; the cursor
    wraps to -1. *)
Theorem read_start_size_max_not_clamped :
  exists f',
    zc_read_start (two64 - 1) (zc_open abc) = Some ((Some 0, two64 - 1), f') /\
    offset f' = -1 /\ size f' = 3.
Proof.
  exists (mk_zc_file abc 3 (-1) 1 0 1).
  split; [vm_compute; reflexivity|]. split; reflexivity.
Qed.

(** C9 (defect): the same unclamped [SIZE_MAX] request yields a non-null
    read window [0, 2^64 - 1) on a three-byte mapping; likewise
    [zc_write_start(SIZE_MAX)] skips the growth and returns a window
    [0, 2^64 - 1) on a three-byte mapping. *)
Theorem window_outside_mapping_size_max :
  (exists f',
     zc_read_start (two64 - 1) (zc_open abc) = Some ((Some 0, two64 - 1), f') /\
     size f' = 3 /\ 0 + (two64 - 1) > size f') /\
  (exists g',
     zc_write_start env_ok (two64 - 1) (zc_open abc) = Some (Some 0, g') /\
     size g' = 3 /\ 0 + (two64 - 1) > size g').
Proof.
  split.
  - exists (mk_zc_file abc 3 (-1) 1 0 1).
    split; [vm_compute; reflexivity|]. split; [reflexivity|vm_compute; reflexivity].
  - exists (mk_zc_file abc 3 (-1) 1 0 0).
    split; [vm_compute; reflexivity|]. split; [reflexivity|vm_compute; reflexivity].
Qed.

(** ** C8: the one-byte floor of an empty file *)

(** C8 (defect): on a newly opened empty file (no byte on disk, mapping of
    length 1) [zc_read_start(5)] returns a non-null window with
    [*size = 1]: the floor byte is exposed as content. *)
Theorem read_start_exposes_floor :
  disk (zc_open []) = [] /\ size (zc_open []) = 1 /\
  exists f', zc_read_start 5 (zc_open []) = Some ((Some 0, 1), f').
Proof.
  split; [reflexivity|]. split; [reflexivity|].
  exists (mk_zc_file [] 1 1 1 0 1). vm_compute. reflexivity.
Qed.

(** ** C1: round trip *)

(** C1 (defect): on a newly opened empty file [zc_write_start(1)] does not
    grow the file (the floor makes [size - cursor] equal to 1), so the
    returned window lies in a mapped page wholly beyond the end of the
    0-byte file; storing "a" into it faults, and the byte can never be
    read back.  (Outside the floor the round trip holds:
    [round_trip_regular].) *)
Theorem round_trip_fails_on_floor :
  zc_write_start env_ok 1 (zc_open []) =
    Some (Some 0, mk_zc_file [] 1 1 1 0 0) /\
  view_write 0 [Byte.x61] (mk_zc_file [] 1 1 1 0 0) = None /\
  write_bytes env_ok [Byte.x61] (zc_open []) = None.
Proof. split; [vm_compute; reflexivity|]. split; vm_compute; reflexivity. Qed.

(** ** C5 and C6: seeking *)

(** C5: when no writer or reader group holds the room, [zc_lseek] returns
    -1 exactly when the mode is unknown or the designated position is
    negative, and then leaves the cursor unchanged; otherwise it sets the
    cursor to the designated position (which may lie beyond
    [mapped_length]) and returns it. *)
Theorem lseek_fails_iff_negative (f : zc_file) (off whence : Z) :
  0 < room_empty f ->
  exists r f',
    zc_lseek off whence f = Some (r, f') /\
    (r = -1 <-> seek_position f off whence = None \/
                exists p, seek_position f off whence = Some p /\ p < 0) /\
    (r = -1 -> offset f' = offset f) /\
    (r <> -1 -> seek_position f off whence = Some r /\ offset f' = r /\ 0 <= r).
Proof.
  intros Hr. rewrite zc_lseek_spec by assumption. cbn zeta.
  unfold seek_position.
  destruct (Z.eqb whence SEEK_SET); [|destruct (Z.eqb whence SEEK_CUR);
    [|destruct (Z.eqb whence SEEK_END)]];
  match goal with
  | |- context [if ?p <? 0 then _ else _] =>
      destruct (Z.ltb_spec p 0)
  end; do 2 eexists; (split; [reflexivity|]);
  repeat split; cbn; intros; try lia;
  repeat match goal with
  | H : _ \/ _ |- _ => destruct H
  | H : exists _, _ |- _ => destruct H
  | H : _ /\ _ |- _ => destruct H
  | H : Some _ = Some _ |- _ => injection H as <-
  | H : None = Some _ |- _ => discriminate H
  | H : Some _ = None |- _ => discriminate H
  end; try lia; eauto.
Qed.

(** C6 (defect): [zc_write_end] gives the room back whatever the outcome
    of [msync]; but a [zc_lseek] to a negative position returns -1 without
    [sem_post]: the room stays taken and the next [zc_write_start] (or
    seek, or first reader) blocks for ever. *)
Theorem failed_seek_keeps_room :
  (forall (b : bool) (f : zc_file),
     option_map (fun r => room_empty (snd r)) (zc_write_end b f) =
     Some (room_empty f + 1)) /\
  exists f',
    zc_lseek (-1) SEEK_SET (zc_open abc) = Some (-1, f') /\
    room_empty f' = 0 /\ offset f' = 0 /\
    zc_write_start env_ok 1 f' = None /\
    zc_lseek 0 SEEK_SET f' = None /\
    zc_read_start 1 f' = None.
Proof.
  split.
  - intros b f. rewrite zc_write_end_spec. reflexivity.
  - exists (mk_zc_file abc 3 0 1 0 0).
    split; [vm_compute; reflexivity|].
    repeat split; vm_compute; reflexivity.
Qed.

(** ** C7: length of the mapping and of the file *)

(** C7 (defect): when [ftruncate] succeeds and [mremap] fails, the failed
    [zc_write_start] returns [NULL] after the file was already extended:
    the file holds 5 bytes and [mapped_length] stays 3, also after the
    [zc_write_end] the protocol requires. *)
Theorem growth_failure_desyncs_length :
  exists f' f'',
    zc_write_start (mk_env true false) 5 (zc_open abc) = Some (None, f') /\
    zc_write_end true f' = Some (tt, f'') /\
    length (disk f'') = 5%nat /\ size f'' = 3.
Proof.
  do 2 eexists. split; [vm_compute; reflexivity|].
  split; [vm_compute; reflexivity|]. split; reflexivity.
Qed.

(** ** C4: readers-writer exclusion *)

Ltac rw_simpl :=
  unfold rw_upd, move, in_group in *;
  cbn [rw_mutex rw_room_empty rw_n_readers at_pc pc_eqb pc_index Nat.eqb] in *.

Lemma rw_inv_init (nr nw ns : nat) : rw_inv (rw_init nr nw ns).
Proof. unfold rw_inv, rw_init, in_group; cbn. lia. Qed.

Lemma rw_inv_step (s s' : rw_state) : rw_inv s -> rw_step s s' -> rw_inv s'.
Proof.
  unfold rw_inv. intros I H; destruct H; rw_simpl; lia.
Qed.

Lemma rw_inv_reachable (nr nw ns : nat) (s : rw_state) :
  rw_reachable nr nw ns s -> rw_inv s.
Proof.
  induction 1 as [|s s' _ IH Hs].
  - apply rw_inv_init.
  - eapply rw_inv_step; eassumption.
Qed.

Lemma readers_enter_one_by_one (nr i : nat) :
  (i <= nr)%nat ->
  exists s, rw_reachable nr 1 0 s /\ rw_mutex s = 1 /\
    rw_n_readers s = Z.of_nat i /\
    rw_room_empty s = (if Nat.eqb i 0 then 1 else 0) /\
    (forall x, at_pc s x = entered nr i x).
Proof.
  induction i as [|i IH]; intros Hi.
  - exists (rw_init nr 1 0). split; [constructor|].
    split; [reflexivity|]. split; [reflexivity|]. split; [reflexivity|].
    intros []; cbn; lia.
  - destruct IH as (s & Hr & Hm & Hn & Hroom & Hc); [lia|].
    destruct i as [|i].
    + (* the first reader takes the room for the group *)
      exists (rw_upd 1 0 0 R_post1 R_in (rw_upd 0 (-1) 0 R_wait_room R_post1
               (rw_upd 0 0 0 R_chk1 R_wait_room (rw_upd 0 0 1 R_inc R_chk1
                 (rw_upd (-1) 0 0 R_idle R_inc s))))).
      split.
      * eapply reach_step; [eapply reach_step; [eapply reach_step;
          [eapply reach_step; [eapply reach_step; [exact Hr|]|]|]|]|].
        -- apply st_r_wait_mutex; rw_simpl; rewrite ?Hc; cbn; lia.
        -- apply st_r_inc; rw_simpl; rewrite ?Hc; cbn; lia.
        -- apply st_r_first; rw_simpl; rewrite ?Hc; cbn; lia.
        -- apply st_r_wait_room; rw_simpl; rewrite ?Hc; cbn; lia.
        -- apply st_r_post_mutex; rw_simpl; rewrite ?Hc; cbn; lia.
      * rw_simpl. split; [lia|]. split; [lia|]. split; [cbn; lia|].
        intros []; cbn; rewrite ?Hc; cbn; lia.
    + (* a later reader joins the group *)
      exists (rw_upd 1 0 0 R_post1 R_in
               (rw_upd 0 0 0 R_chk1 R_post1 (rw_upd 0 0 1 R_inc R_chk1
                 (rw_upd (-1) 0 0 R_idle R_inc s)))).
      split.
      * eapply reach_step; [eapply reach_step; [eapply reach_step;
          [eapply reach_step; [exact Hr|]|]|]|].
        -- apply st_r_wait_mutex; rw_simpl; rewrite ?Hc; cbn; lia.
        -- apply st_r_inc; rw_simpl; rewrite ?Hc; cbn; lia.
        -- apply st_r_not_first; rw_simpl; rewrite ?Hc; cbn; lia.
        -- apply st_r_post_mutex; rw_simpl; rewrite ?Hc; cbn; lia.
      * rw_simpl. split; [lia|]. split; [lia|]. split; [cbn; lia|].
        intros []; cbn; rewrite ?Hc; cbn; lia.
Qed.

(** C4: in every interleaving of readers, writers and seeking threads from
    [zc_open]: a reader and a writer never hold windows at once, nor two
    writers (nor a writer or a reader and a seek); while a reader holds a
    window the room is taken (by the group) and no writer holds it; a
    reader waits for the room only as the first one ([n_readers] went
    0 to 1) and gives it back only as the last one ([n_readers] went 1 to
    0).  And any number [nr] of readers can hold their windows at the same
    time, the room then being taken so that a writer's [sem_wait] cannot
    proceed. *)
Theorem readers_writer_exclusion :
  (forall (nr nw ns : nat) (s : rw_state),
     rw_reachable nr nw ns s ->
     (at_pc s R_in = 0 \/ at_pc s W_in = 0)%nat /\
     (at_pc s W_in <= 1)%nat /\
     (at_pc s W_in = 0 \/ at_pc s S_in = 0)%nat /\
     (at_pc s R_in = 0 \/ at_pc s S_in = 0)%nat /\
     ((0 < at_pc s R_in)%nat -> rw_room_empty s = 0) /\
     ((0 < at_pc s R_wait_room)%nat -> rw_n_readers s = 1) /\
     ((0 < at_pc s R_post_room)%nat -> rw_n_readers s = 0)) /\
  (forall nr : nat, exists s,
     rw_reachable nr 1 0 s /\ at_pc s R_in = nr /\ at_pc s W_idle = 1%nat /\
     ((0 < nr)%nat -> rw_room_empty s = 0)).
Proof.
  split.
  - intros nr nw ns s Hr. apply rw_inv_reachable in Hr.
    unfold rw_inv, in_group in Hr. lia.
  - intros nr.
    destruct (readers_enter_one_by_one nr nr) as (s & Hr & _ & _ & Hroom & Hc);
      [lia|].
    exists s. split; [exact Hr|]. rewrite !Hc. cbn.
    split; [reflexivity|]. split; [reflexivity|].
    intros Hp. rewrite Hroom. destruct (Nat.eqb_spec nr 0); [lia|reflexivity].
Qed.

(** ** Witnesses *)


Lemma lseek_fails_iff_negative_witness :
  exists r f',
    zc_lseek (-4) SEEK_END (zc_open abc) = Some (r, f') /\
    (r = -1 <-> seek_position (zc_open abc) (-4) SEEK_END = None \/
                exists p, seek_position (zc_open abc) (-4) SEEK_END = Some p /\ p < 0) /\
    (r = -1 -> offset f' = offset (zc_open abc)) /\
    (r <> -1 -> seek_position (zc_open abc) (-4) SEEK_END = Some r /\
                offset f' = r /\ 0 <= r).
Proof.
  apply (lseek_fails_iff_negative (zc_open abc) (-4) SEEK_END).
  vm_compute. reflexivity.
Defined.

Lemma read_start_null_iff_eof_witness :
  let f := set_offset 1 (zc_open abc) in
  let f' := mk_zc_file abc 3 3 1 0 1 in
  (Some (1 : Z) = None <-> size f <= offset f) /\
  (Some (1 : Z) = None -> offset f' = offset f /\ 2 = 0) /\
  (offset f < size f ->
     Some (1 : Z) = Some (offset f) /\
     (0 <= offset f -> 0 <= offset f < size f)).
Proof.
  intros f f'.
  apply (read_start_null_iff_eof 5 f f' (Some 1) 2).
  vm_compute. reflexivity.
Defined.

(** ** The process model: files and descriptors *)

Lemma lookup_update_file (path q : String.string) (c : list Byte.byte)
  (fs : list (String.string * list Byte.byte)) :
  lookup_file q (update_file path c fs) =
  if String.eqb q path then Some c else lookup_file q fs.
Proof.
  induction fs as [|[r c'] fs IH]; cbn.
  - destruct (String.eqb q path); reflexivity.
  - destruct (String.eqb_spec path r) as [<-|Hne]; cbn.
    + destruct (String.eqb q path); reflexivity.
    + rewrite IH. destruct (String.eqb_spec q path) as [->|Hq].
      * apply String.eqb_neq in Hne. rewrite Hne. reflexivity.
      * reflexivity.
Qed.

Lemma sys_open_ok (path : String.string) (p : proc) :
  sys_open true path p =
    (next_fd p,
     mk_proc (match lookup_file path (files p) with
              | Some _ => files p | None => update_file path [] (files p) end)
       ((next_fd p, path) :: fds p) (next_fd p + 1) (heap p) (next_blk p)).
Proof. reflexivity. Qed.

Lemma lookup_after_open (path q : String.string) (p : proc) :
  lookup_file q (files (snd (sys_open true path p))) =
  if String.eqb q path then Some (contents path p) else lookup_file q (files p).
Proof.
  cbn [sys_open snd files]. unfold contents.
  destruct (lookup_file path (files p)) eqn:E.
  - destruct (String.eqb_spec q path) as [->|]; auto.
  - rewrite lookup_update_file. reflexivity.
Qed.

Lemma contents_after_open (path q : String.string) (p : proc) :
  contents q (snd (sys_open true path p)) =
  if String.eqb q path then contents path p else contents q p.
Proof.
  unfold contents at 1. rewrite lookup_after_open.
  destruct (String.eqb q path); reflexivity.
Qed.

Lemma lookup_after_write_fd (fd : Z) (path q : String.string) (c : list Byte.byte)
  (p : proc) :
  fd_path fd (fds p) = Some path ->
  lookup_file q (files (write_fd fd c p)) =
  if String.eqb q path then Some c else lookup_file q (files p).
Proof.
  intros H. unfold write_fd. rewrite H. cbn. apply lookup_update_file.
Qed.

Lemma file_of_fd_path (fd : Z) (path : String.string) (p : proc) :
  fd_path fd (fds p) = Some path -> file_of_fd fd p = contents path p.
Proof. intros H. unfold file_of_fd. rewrite H. reflexivity. Qed.

Lemma fds_write_fd (fd : Z) (c : list Byte.byte) (p : proc) :
  fds (write_fd fd c p) = fds p.
Proof. unfold write_fd. destruct (fd_path fd (fds p)); reflexivity. Qed.

Lemma sys_open_split (path : String.string) (p : proc) :
  sys_open true path p = (next_fd p, snd (sys_open true path p)) /\
  fds (snd (sys_open true path p)) = (next_fd p, path) :: fds p /\
  next_fd (snd (sys_open true path p)) = next_fd p + 1 /\
  heap (snd (sys_open true path p)) = heap p /\
  next_blk (snd (sys_open true path p)) = next_blk p.
Proof. repeat split. Qed.

Lemma fd_path_head (fd : Z) (path : String.string) (t : list (Z * String.string)) :
  fd_path fd ((fd, path) :: t) = Some path.
Proof. cbn. rewrite Z.eqb_refl. reflexivity. Qed.

Lemma fd_path_cons_other (fd fd' : Z) (path : String.string)
  (t : list (Z * String.string)) :
  fd <> fd' -> fd_path fd ((fd', path) :: t) = fd_path fd t.
Proof. intros H. cbn. apply Z.eqb_neq in H. rewrite H. reflexivity. Qed.

(** Shape of a [zc_copyfile] run in which both [open]s, the [fstat] and
    the [ftruncate] succeed and [copy_file_range] does not report -1. *)
Lemma copyfile_run (k : Z) (cl : bool) (src dst : String.string) (p : proc) :
  src <> dst -> 0 <= next_fd p -> k <> -1 ->
  let n := Z.of_nat (length (contents src p)) in
  let p1 := snd (sys_open true src p) in
  let p2 := snd (sys_open true dst p1) in
  exists p5,
    zc_copyfile_proc (mk_copy_env true true true true k cl) src dst p =
      (if cl then 0 else -1, p5) /\
    lookup_file dst (files p5) =
      Some (firstn (Z.to_nat (Z.min k n)) (contents src p) ++
            skipn (Z.to_nat (Z.min k n)) (truncate_to n (contents dst p1))) /\
    (forall q, q <> dst -> lookup_file q (files p5) = lookup_file q (files p1)) /\
    In (next_fd p, src) (fds p5) /\
    heap p5 = heap p.
Proof.
  intros Hne Hfd Hk n p1 p2.
  destruct (sys_open_split src p) as (E1 & F1 & N1 & H1 & B1). fold p1 in E1, F1, N1, H1, B1.
  destruct (sys_open_split dst p1) as (E2 & F2 & N2 & H2 & B2). fold p2 in E2, F2, N2, H2, B2.
  assert (Hs1 : contents src p1 = contents src p).
  { unfold p1. rewrite contents_after_open, String.eqb_refl. reflexivity. }
  assert (Hs2 : contents src p2 = contents src p).
  { unfold p2. rewrite contents_after_open.
    destruct (String.eqb_spec src dst); [contradiction|exact Hs1]. }
  assert (Pd : fd_path (next_fd p1) (fds p2) = Some dst)
    by (rewrite F2; apply fd_path_head).
  assert (Ps : fd_path (next_fd p) (fds p2) = Some src)
    by (rewrite F2, F1, fd_path_cons_other by lia; apply fd_path_head).
  assert (Ps1 : fd_path (next_fd p) (fds p1) = Some src)
    by (rewrite F1; apply fd_path_head).
  unfold zc_copyfile_proc. cbn [src_open_ok dst_open_ok]. rewrite E1.
  destruct (Z.eqb_spec (next_fd p) (-1)); [lia|]. cbn [src_fstat_ok negb].
  rewrite (file_of_fd_path _ src) by exact Ps1. rewrite Hs1. fold n.
  rewrite E2. destruct (Z.eqb_spec (next_fd p1) (-1)); [lia|].
  cbn [dst_ftruncate_ok negb copy_ret dst_close_ok].
  destruct (Z.eqb_spec k (-1)); [contradiction|].
  set (p3 := sys_ftruncate (next_fd p1) n p2).
  assert (F3 : fds p3 = fds p2) by apply fds_write_fd.
  assert (L3 : forall q, lookup_file q (files p3) =
                 if String.eqb q dst then Some (truncate_to n (contents dst p1))
                 else lookup_file q (files p2)).
  { intros q. unfold p3, sys_ftruncate.
    rewrite (lookup_after_write_fd _ dst) by exact Pd.
    rewrite (file_of_fd_path _ dst) by exact Pd.
    unfold p2. rewrite contents_after_open, String.eqb_refl. reflexivity. }
  set (p4 := sys_copy (next_fd p) (next_fd p1) (Z.min k n) p3).
  assert (L4 : forall q, lookup_file q (files p4) =
                 if String.eqb q dst then
                   Some (firstn (Z.to_nat (Z.min k n)) (contents src p) ++
                         skipn (Z.to_nat (Z.min k n)) (truncate_to n (contents dst p1)))
                 else lookup_file q (files p2)).
  { intros q. unfold p4, sys_copy.
    rewrite (lookup_after_write_fd _ dst) by (rewrite F3; exact Pd).
    rewrite (file_of_fd_path _ src) by (rewrite F3; exact Ps).
    rewrite (file_of_fd_path _ dst) by (rewrite F3; exact Pd).
    assert (Cs : contents src p3 = contents src p).
    { unfold contents at 1. rewrite L3.
      destruct (String.eqb_spec src dst); [contradiction|]. exact Hs2. }
    assert (Cd : contents dst p3 = truncate_to n (contents dst p1)).
    { unfold contents at 1. rewrite L3, String.eqb_refl. reflexivity. }
    rewrite Cs, Cd. destruct (String.eqb q dst) eqn:Eq; [reflexivity|].
    rewrite L3, Eq. reflexivity. }
  assert (F4 : fds p4 = fds p2) by (unfold p4, sys_copy; rewrite fds_write_fd; exact F3).
  assert (Hp4 : heap p4 = heap p).
  { unfold p4, p3, sys_copy, sys_ftruncate, write_fd.
    destruct (fd_path _ (fds (match _ with Some _ => _ | None => _ end))), (fd_path _ (fds p2));
      cbn; congruence. }
  exists (snd (sys_close cl (next_fd p1) p4)).
  split; [destruct cl; reflexivity|].
  split; [|split; [|split]].
  - cbn [sys_close snd files]. rewrite L4, String.eqb_refl. reflexivity.
  - intros q Hq. cbn [sys_close snd files]. rewrite L4.
    destruct (String.eqb_spec q dst); [contradiction|].
    unfold p2. rewrite lookup_after_open.
    destruct (String.eqb_spec q dst); [contradiction|reflexivity].
  - cbn [sys_close snd fds]. apply filter_In. split.
    + rewrite F4, F2, F1. right. left. reflexivity.
    + cbn [fst]. apply negb_true_iff, Z.eqb_neq. lia.
  - cbn [sys_close snd heap]. exact Hp4.
Qed.

Lemma firstn_skipn_truncate (n : Z) (s d : list Byte.byte) :
  Z.of_nat (length s) = n ->
  firstn (Z.to_nat (Z.min n n)) s ++ skipn (Z.to_nat (Z.min n n)) (truncate_to n d) = s.
Proof.
  intros Hn. rewrite Z.min_id.
  rewrite skipn_all2 by (rewrite truncate_to_length by lia; lia).
  rewrite app_nil_r, firstn_all2 by lia. reflexivity.
Qed.

(** ** zc_copyfile *)

(** [zc_copyfile] between two different paths whose calls all succeed and
    whose [copy_file_range] copies the whole source returns 0 and leaves
    the destination byte-identical to the source, whatever its previous
    contents or length; a missing source is created empty (and the
    destination then becomes empty). *)
Theorem copyfile_full_copy (src dst : String.string) (p : proc) :
  src <> dst -> 0 <= next_fd p ->
  let n := Z.of_nat (length (contents src p)) in
  fst (zc_copyfile_proc (mk_copy_env true true true true n true) src dst p) = 0 /\
  lookup_file dst (files (snd (zc_copyfile_proc (mk_copy_env true true true true n true)
                                 src dst p))) = Some (contents src p) /\
  lookup_file src (files (snd (zc_copyfile_proc (mk_copy_env true true true true n true)
                                 src dst p))) = Some (contents src p).
Proof.
  intros Hne Hfd n.
  destruct (copyfile_run n true src dst p Hne Hfd) as (p5 & E & Ld & Lo & _ & _);
    [unfold n; lia|].
  fold n in E, Ld, Lo. rewrite E. cbn [fst snd].
  split; [reflexivity|]. split.
  - rewrite Ld, firstn_skipn_truncate by reflexivity. reflexivity.
  - rewrite Lo by exact Hne. rewrite lookup_after_open, String.eqb_refl. reflexivity.
Qed.

(** [zc_copyfile] checks [copy_file_range] only against -1: when it copies
    [k] bytes of an [n]-byte source with [0 <= k < n], [zc_copyfile] still
    returns 0, and the destination holds the first [k] source bytes
    followed by its own old bytes [k .. n-1] (zero bytes where it was
    shorter). *)
Theorem copyfile_short_copy_succeeds (k : Z) (src dst : String.string) (p : proc) :
  src <> dst -> 0 <= next_fd p ->
  0 <= k < Z.of_nat (length (contents src p)) ->
  let n := Z.of_nat (length (contents src p)) in
  fst (zc_copyfile_proc (mk_copy_env true true true true k true) src dst p) = 0 /\
  lookup_file dst (files (snd (zc_copyfile_proc (mk_copy_env true true true true k true)
                                 src dst p))) =
    Some (firstn (Z.to_nat k) (contents src p) ++
          skipn (Z.to_nat k) (truncate_to n (contents dst p))).
Proof.
  intros Hne Hfd Hk n.
  destruct (copyfile_run k true src dst p Hne Hfd) as (p5 & E & Ld & _ & _ & _);
    [lia|].
  fold n in E, Ld. rewrite E. cbn [fst snd].
  split; [reflexivity|]. rewrite Ld.
  rewrite Z.min_l by (unfold n; lia).
  rewrite contents_after_open.
  destruct (String.eqb_spec dst src); [congruence|reflexivity].
Qed.

(** [zc_copyfile] never closes the source descriptor: once [open(source)]
    succeeded, the descriptor is still open when [zc_copyfile] returns, on
    its success path and on each of its error paths. *)
Theorem copyfile_keeps_source_fd_open (e : copy_env) (src dst : String.string) (p : proc) :
  src_open_ok e = true -> 0 <= next_fd p ->
  In (next_fd p, src) (fds (snd (zc_copyfile_proc e src dst p))).
Proof.
  intros Ho Hfd. destruct e as [a b c d k cl]; cbn in Ho; subst a.
  destruct (sys_open_split src p) as (E1 & F1 & N1 & _ & _).
  set (p1 := snd (sys_open true src p)) in *.
  assert (I1 : In (next_fd p, src) (fds p1)) by (rewrite F1; left; reflexivity).
  unfold zc_copyfile_proc. cbn [src_open_ok src_fstat_ok dst_open_ok
    dst_ftruncate_ok copy_ret dst_close_ok]. rewrite E1.
  destruct (Z.eqb_spec (next_fd p) (-1)); [lia|].
  destruct b; cbn [negb]; [|exact I1].
  destruct c; [|cbn; exact I1].
  destruct (sys_open_split dst p1) as (E2 & F2 & N2 & _ & _).
  set (p2 := snd (sys_open true dst p1)) in *.
  rewrite E2. destruct (Z.eqb_spec (next_fd p1) (-1)); [lia|].
  assert (I2 : In (next_fd p, src) (fds p2)) by (rewrite F2; right; exact I1).
  destruct d; cbn [negb]; [|exact I2].
  assert (I3 : In (next_fd p, src) (fds (sys_ftruncate (next_fd p1)
                  (Z.of_nat (length (file_of_fd (next_fd p) p1))) p2)))
    by (unfold sys_ftruncate; rewrite fds_write_fd; exact I2).
  destruct (Z.eqb k (-1)); [exact I3|].
  cbn [sys_close]. destruct (Z.eqb (if cl then 0 else -1) (-1)); cbn [snd fds];
    apply filter_In; (split; [unfold sys_copy; rewrite fds_write_fd; exact I3|]);
    cbn [fst]; apply negb_true_iff, Z.eqb_neq; lia.
Qed.

(** ** zc_open and zc_close *)

Lemma filter_keep_all {A} (f : A -> bool) (l : list A) :
  (forall x, In x l -> f x = true) -> filter f l = l.
Proof.
  induction l as [|x l IH]; intros H; cbn; [reflexivity|].
  rewrite H by (left; reflexivity). f_equal. apply IH. intros y Hy. apply H. right. exact Hy.
Qed.

(** [zc_open] returns [NULL] exactly when [open], [fstat] or [mmap]
    fails; when [open] succeeded and a later call fails, the new
    descriptor is left open and nothing is allocated. *)
Theorem open_null_iff_failure (e : open_env) (path : String.string) (p : proc) :
  0 <= next_fd p ->
  (fst (zc_open_proc e path p) = None <->
     open_ok e = false \/ fstat_ok e = false \/ mmap_ok e = false) /\
  (open_ok e = true -> fst (zc_open_proc e path p) = None ->
     In (next_fd p, path) (fds (snd (zc_open_proc e path p))) /\
     heap (snd (zc_open_proc e path p)) = heap p).
Proof.
  intros Hfd. destruct e as [a b c]. unfold zc_open_proc.
  cbn [open_ok fstat_ok mmap_ok].
  destruct a.
  - destruct (sys_open_split path p) as (E1 & F1 & _ & H1 & _).
    rewrite E1. destruct (Z.eqb_spec (next_fd p) (-1)); [lia|].
    destruct b, c; cbn [negb fst snd];
      (split; [split; [intros H; try discriminate; auto
                      |intros [H|[H|H]]; try discriminate; reflexivity]|]);
      intros _ H; try discriminate; rewrite ?F1, ?H1; split; auto; left; reflexivity.
  - cbn. split; [split; auto|]. intros H; discriminate.
Qed.

(** [zc_open] then [zc_close], every call succeeding, leaves the file as
    it was (an empty or missing file stays empty: the one-byte mapping
    floor is not written to it), closes the descriptor, and frees the
    [zc_file] struct but not the two semaphores [zc_open] allocated. *)
Theorem open_close_keeps_file_leaks_semaphores (path : String.string) (p : proc) :
  0 <= next_fd p -> (forall x, In x (heap p) -> x < next_blk p) ->
  exists h p1 p2,
    zc_open_proc open_env_ok path p = (Some h, p1) /\
    h_file h = zc_open (contents path p) /\
    zc_close_proc close_env_ok h p1 = (0, p2) /\
    lookup_file path (files p2) = Some (contents path p) /\
    (forall q, ~ In (h_fd h, q) (fds p2)) /\
    heap p2 = h_room_blk h :: h_mutex_blk h :: heap p.
Proof.
  intros Hfd Hh.
  destruct (sys_open_split path p) as (E1 & F1 & N1 & H1 & B1).
  set (p1 := snd (sys_open true path p)) in *.
  assert (Pf : fd_path (next_fd p) (fds p1) = Some path)
    by (rewrite F1; apply fd_path_head).
  assert (C1 : contents path p1 = contents path p).
  { unfold p1. rewrite contents_after_open, String.eqb_refl. reflexivity. }
  unfold zc_open_proc. cbn [open_env_ok open_ok fstat_ok mmap_ok negb]. rewrite E1.
  destruct (Z.eqb_spec (next_fd p) (-1)); [lia|].
  rewrite (file_of_fd_path _ path) by exact Pf. rewrite C1.
  cbn [malloc next_blk heap files fds next_fd].
  do 3 eexists. split; [reflexivity|]. split; [reflexivity|].
  unfold zc_close_proc. cbn [close_env_ok fsync_ok munmap_ok close_ok negb h_fd h_file h_blk].
  unfold write_fd. cbn [fds]. rewrite Pf. cbn [sys_close set_files files fds next_fd heap next_blk].
  cbn [Z.eqb]. split; [reflexivity|].
  cbn [free files fds heap h_room_blk h_mutex_blk].
  split; [|split].
  - rewrite lookup_update_file, String.eqb_refl. reflexivity.
  - intros q Hin. apply filter_In in Hin as [_ Hin]. cbn [fst] in Hin.
    rewrite Z.eqb_refl in Hin. discriminate.
  - rewrite H1, B1. cbn [filter]. rewrite Z.eqb_refl. cbn [negb].
    destruct (Z.eqb_spec (next_blk p + 1) (next_blk p + 1 + 1)); [lia|].
    destruct (Z.eqb_spec (next_blk p) (next_blk p + 1 + 1)); [lia|].
    cbn [negb]. f_equal. f_equal. apply filter_keep_all.
    intros x Hx. apply negb_true_iff, Z.eqb_neq. specialize (Hh x Hx). lia.
Qed.

(** When [fsync] or [munmap] fails, [zc_close] returns -1 with the
    descriptor still open and the [zc_file] struct and semaphores still
    allocated: the handle is neither usable (its mapping may be gone) nor
    released. *)
Theorem close_failure_releases_nothing (e : close_env) (h : zc_handle) (p : proc) :
  fsync_ok e = false \/ munmap_ok e = false ->
  fst (zc_close_proc e h p) = -1 /\
  fds (snd (zc_close_proc e h p)) = fds p /\
  heap (snd (zc_close_proc e h p)) = heap p.
Proof.
  intros Hf. destruct e as [a b c]; cbn in Hf. unfold zc_close_proc.
  cbn [fsync_ok munmap_ok close_ok].
  assert (Hw : fds (write_fd (h_fd h) (disk (h_file h)) p) = fds p /\
               heap (write_fd (h_fd h) (disk (h_file h)) p) = heap p)
    by (unfold write_fd; destruct (fd_path _ _); split; reflexivity).
  destruct Hw as [Hw1 Hw2].
  destruct a; cbn [negb fst snd]; [|auto].
  destruct b; cbn [negb fst snd]; [|auto].
  destruct Hf; discriminate.
Qed.

(** ** The read and write protocols in sequence *)

(** A [zc_read_start] followed by its [zc_read_end], from a state where no
    reader is active and the room is free, gives back both semaphores and
    the reader count, and changes neither the file nor the mapping
    length: only the cursor moves. *)
Theorem read_pair_restores_sync (req : Z) (f : zc_file) :
  mutex f = 1 -> room_empty f = 1 -> n_readers f = 0 ->
  exists r f1 f2,
    zc_read_start req f = Some (r, f1) /\ zc_read_end f1 = Some (tt, f2) /\
    mutex f2 = 1 /\ room_empty f2 = 1 /\ n_readers f2 = 0 /\
    disk f2 = disk f /\ size f2 = size f.
Proof.
  intros Hm Hr Hn.
  rewrite zc_read_start_spec by lia. cbn zeta.
  destruct f as [d s o m rm n]; cbn in Hm, Hr, Hn; subst.
  unfold read_entered; cbn [disk size offset mutex room_empty n_readers].
  cbn [Z.add Z.eqb].
  destruct (s <=? o); do 3 eexists; (split; [reflexivity|]);
    (split; [unfold_ops; cbn; reflexivity|]); cbn; auto.
Qed.

(** A [zc_write_start] followed by its [zc_write_end] gives the room back
    whatever [ftruncate], [mremap] and [msync] do; when [ftruncate] fails
    (so that [zc_write_start] returns [NULL]) the file, the mapping length
    and the cursor are unchanged. *)
Theorem write_pair_restores_room (e : env) (ms : bool) (sz : Z) (f : zc_file) :
  0 < room_empty f ->
  exists r f1 f2,
    zc_write_start e sz f = Some (r, f1) /\ zc_write_end ms f1 = Some (tt, f2) /\
    room_empty f2 = room_empty f /\ mutex f2 = mutex f /\
    n_readers f2 = n_readers f /\
    (ftruncate_ok e = false -> r = None ->
       disk f2 = disk f /\ size f2 = size f /\ offset f2 = offset f).
Proof.
  intros Hr. destruct f as [d s o m rm n]; cbn in Hr |- *.
  destruct e as [ft mr].
  unfold zc_write_start, bind, ret, get, modify, sem_wait_room.
  cbn [room_empty]. destruct (Z.ltb_spec 0 rm); [|lia].
  unfold set_room_empty, set_disk, set_size, set_offset;
    cbn [disk size offset mutex room_empty n_readers ftruncate_ok mremap_ok].
  destruct (s - o <? to_long sz);
    [destruct ft; cbn [negb orb];
       [destruct (off_add_size o sz <? 0); cbn [orb];
          [|destruct mr; cbn [negb]]|]|];
    do 3 eexists; (split; [reflexivity|]); rewrite zc_write_end_spec;
    (split; [reflexivity|]); cbn;
    repeat split; intros; try lia; try discriminate; reflexivity.
Qed.


(** With the room free, [zc_lseek(k, SEEK_SET)] for [k >= 0] followed by
    [zc_lseek(0, SEEK_CUR)] returns [k] both times, also for [k] past the
    end of the file. *)
Theorem seek_set_then_cur (k : Z) (f : zc_file) :
  0 <= k -> 0 < room_empty f ->
  exists f1 f2,
    zc_lseek k SEEK_SET f = Some (k, f1) /\
    zc_lseek 0 SEEK_CUR f1 = Some (k, f2) /\ offset f2 = k.
Proof.
  intros Hk Hr.
  exists (set_offset k f), (set_offset k (set_offset k f)).
  split; [|split].
  - rewrite zc_lseek_spec by exact Hr. cbn zeta. cbn [Z.eqb SEEK_SET].
    destruct (Z.ltb_spec k 0); [lia|reflexivity].
  - rewrite zc_lseek_spec by (cbn; exact Hr). cbn zeta.
    unfold SEEK_SET, SEEK_CUR, SEEK_END; cbn [Z.eqb Pos.eqb offset set_offset].
    rewrite Z.add_0_r.
    destruct (Z.ltb_spec k 0); [lia|reflexivity].
  - reflexivity.
Qed.


(** A [zc_write_start(sz)] whose window fits in the mapping
    ([offset + sz <= size]) neither resizes nor rewrites anything: the
    file and the mapping length are unchanged, the window is at the
    cursor and the cursor advances by [sz]. *)
Theorem write_within_mapping_no_resize (sz : Z) (f : zc_file) :
  0 < room_empty f -> 0 <= offset f -> 0 <= sz -> offset f + sz <= size f ->
  size f < two63 ->
  exists f',
    zc_write_start env_ok sz f = Some (Some (offset f), f') /\
    disk f' = disk f /\ size f' = size f /\ offset f' = offset f + sz.
Proof.
  intros Hr Ho Hs Hin Hb.
  exists (write_started f sz).
  rewrite zc_write_start_ok by lia. split; [reflexivity|].
  unfold write_started. destruct (Z.ltb_spec (size f) (offset f + sz)); [lia|].
  cbn. auto.
Qed.

(** ** Instances of the process-level and protocol facts *)

Lemma copyfile_full_copy_witness :
  fst (zc_copyfile_proc (mk_copy_env true true true true 3 true) path_a path_b proc_ab) = 0 /\
  lookup_file path_b (files (snd (zc_copyfile_proc (mk_copy_env true true true true 3 true)
                                    path_a path_b proc_ab))) = Some abc /\
  lookup_file path_a (files (snd (zc_copyfile_proc (mk_copy_env true true true true 3 true)
                                    path_a path_b proc_ab))) = Some abc.
Proof.
  exact (copyfile_full_copy path_a path_b proc_ab ltac:(intros H; apply String.eqb_eq in H; vm_compute in H; discriminate H)
           ltac:(vm_compute; discriminate)).
Defined.

Lemma copyfile_short_copy_succeeds_witness :
  fst (zc_copyfile_proc (mk_copy_env true true true true 1 true) path_a path_b proc_ab) = 0 /\
  lookup_file path_b (files (snd (zc_copyfile_proc (mk_copy_env true true true true 1 true)
                                    path_a path_b proc_ab))) =
    Some (firstn 1 abc ++ skipn 1 (truncate_to 3 (xyz ++ xyz))).
Proof.
  exact (copyfile_short_copy_succeeds 1 path_a path_b proc_ab
           ltac:(intros H; apply String.eqb_eq in H; vm_compute in H; discriminate H)
           ltac:(vm_compute; discriminate) ltac:(vm_compute; split; [discriminate|reflexivity])).
Defined.

Lemma copyfile_keeps_source_fd_open_witness :
  In (3, path_a) (fds (snd (zc_copyfile_proc (mk_copy_env true true true true 3 true)
                               path_a path_b proc_ab))).
Proof.
  exact (copyfile_keeps_source_fd_open (mk_copy_env true true true true 3 true)
           path_a path_b proc_ab eq_refl ltac:(vm_compute; discriminate)).
Defined.

Lemma open_null_iff_failure_witness :
  (fst (zc_open_proc (mk_open_env true false true) path_a proc_ab) = None <->
     open_ok (mk_open_env true false true) = false \/
     fstat_ok (mk_open_env true false true) = false \/
     mmap_ok (mk_open_env true false true) = false) /\
  (open_ok (mk_open_env true false true) = true ->
   fst (zc_open_proc (mk_open_env true false true) path_a proc_ab) = None ->
     In (3, path_a) (fds (snd (zc_open_proc (mk_open_env true false true) path_a proc_ab))) /\
     heap (snd (zc_open_proc (mk_open_env true false true) path_a proc_ab)) = heap proc_ab).
Proof.
  exact (open_null_iff_failure (mk_open_env true false true) path_a proc_ab
           ltac:(vm_compute; discriminate)).
Defined.

Lemma open_close_keeps_file_leaks_semaphores_witness :
  exists h p1 p2,
    zc_open_proc open_env_ok path_a proc_ab = (Some h, p1) /\
    h_file h = zc_open (contents path_a proc_ab) /\
    zc_close_proc close_env_ok h p1 = (0, p2) /\
    lookup_file path_a (files p2) = Some (contents path_a proc_ab) /\
    (forall q, ~ In (h_fd h, q) (fds p2)) /\
    heap p2 = h_room_blk h :: h_mutex_blk h :: heap proc_ab.
Proof.
  exact (open_close_keeps_file_leaks_semaphores path_a proc_ab
           ltac:(vm_compute; discriminate) ltac:(intros x Hx; destruct Hx)).
Defined.

Lemma close_failure_releases_nothing_witness :
  fst (zc_close_proc (mk_close_env false true true) (mk_zc_handle 3 0 1 2 (zc_open abc))
         proc_ab) = -1 /\
  fds (snd (zc_close_proc (mk_close_env false true true) (mk_zc_handle 3 0 1 2 (zc_open abc))
              proc_ab)) = fds proc_ab /\
  heap (snd (zc_close_proc (mk_close_env false true true) (mk_zc_handle 3 0 1 2 (zc_open abc))
               proc_ab)) = heap proc_ab.
Proof.
  exact (close_failure_releases_nothing (mk_close_env false true true)
           (mk_zc_handle 3 0 1 2 (zc_open abc)) proc_ab (or_introl eq_refl)).
Defined.

Lemma read_pair_restores_sync_witness :
  exists r f1 f2,
    zc_read_start 2 (zc_open abc) = Some (r, f1) /\ zc_read_end f1 = Some (tt, f2) /\
    mutex f2 = 1 /\ room_empty f2 = 1 /\ n_readers f2 = 0 /\
    disk f2 = disk (zc_open abc) /\ size f2 = size (zc_open abc).
Proof.
  exact (read_pair_restores_sync 2 (zc_open abc) ltac:(vm_compute; reflexivity)
           ltac:(vm_compute; reflexivity) ltac:(vm_compute; reflexivity)).
Defined.

Lemma write_pair_restores_room_witness :
  exists r f1 f2,
    zc_write_start (mk_env false true) 5 (zc_open abc) = Some (r, f1) /\
    zc_write_end true f1 = Some (tt, f2) /\
    room_empty f2 = room_empty (zc_open abc) /\ mutex f2 = mutex (zc_open abc) /\
    n_readers f2 = n_readers (zc_open abc) /\
    (ftruncate_ok (mk_env false true) = false -> r = None ->
       disk f2 = disk (zc_open abc) /\ size f2 = size (zc_open abc) /\
       offset f2 = offset (zc_open abc)).
Proof.
  exact (write_pair_restores_room (mk_env false true) true 5 (zc_open abc)
           ltac:(vm_compute; reflexivity)).
Defined.


Lemma seek_set_then_cur_witness :
  exists f1 f2,
    zc_lseek 7 SEEK_SET (zc_open abc) = Some (7, f1) /\
    zc_lseek 0 SEEK_CUR f1 = Some (7, f2) /\ offset f2 = 7.
Proof.
  exact (seek_set_then_cur 7 (zc_open abc) ltac:(lia) ltac:(vm_compute; reflexivity)).
Defined.


Lemma write_within_mapping_no_resize_witness :
  exists f',
    zc_write_start env_ok 2 (zc_open abc) = Some (Some 0, f') /\
    disk f' = abc /\ size f' = 3 /\ offset f' = 2.
Proof.
  exact (write_within_mapping_no_resize 2 (zc_open abc) ltac:(vm_compute; reflexivity)
           ltac:(vm_compute; discriminate) ltac:(lia) ltac:(vm_compute; discriminate)
           ltac:(vm_compute; reflexivity)).
Defined.
